(** * A shallow embedding of the mock CRM service ([crmService]) of CRM-PRO-VB

    The service of the repository is a module holding four mutable arrays
    ([customers], [contacts], [deals], [activities]) of plain JavaScript
    objects, with async CRUD functions per entity and the aggregation
    [getDashboardStats].  The revision modelled here is the one read by the
    Dashboard page (the service file with [getDashboardStats] computing
    [avgHealthScore], [pipeline] and [topCustomers]).

    Modelling choices:
    - a JavaScript value is [JsVal]; a nested object or array is a
      reference [VRef r] into a heap that no operation of the service reads
      or mutates, so [===] on objects is reference equality;
    - a record is a finite map from property names to values
      ([gmap string JsVal]); [{...a, ...b}] is the left-biased union [b ∪ a];
    - the store is a record of the four arrays, and each service function
      is a state-and-exception computation over it: a [throw] keeps the
      store as it is at the throw;
    - the values of [uuidv4()] and of
      [new Date().toISOString().split('T')[0]] during one call are inputs of
      that call ([Env]); the two date reads of one call are taken to fall on
      the same day;
    - the artificial [await delay(ms)] is dropped: calls run one at a time. *)

From Stdlib Require Import ZArith QArith Qround String List Sorted Lia.
From stdpp Require Import base gmap list strings.
Import ListNotations.
Open Scope Z_scope.

(** ** JavaScript values *)

Inductive JsVal :=
| VUndef
| VNull
| VBool (b : bool)
| VNum (n : Z)
| VNaN
| VStr (s : string)
| VRef (r : positive).

Abbreviation Obj := (gmap string JsVal).

(** Property read [o.k]: a missing property reads as [undefined]. *)
Definition js_get (o : Obj) (k : string) : JsVal :=
  match o !! k with Some v => v | None => VUndef end.

(** Strict equality [===]. *)
Definition strict_eq (a b : JsVal) : bool :=
  match a, b with
  | VUndef, VUndef => true
  | VNull, VNull => true
  | VBool x, VBool y => Bool.eqb x y
  | VNum x, VNum y => Z.eqb x y
  | VStr x, VStr y => String.eqb x y
  | VRef x, VRef y => Pos.eqb x y
  | _, _ => false
  end.

(** ** The store and the service monad *)

Record Store := mkStore {
  customers : list Obj;
  contacts : list Obj;
  deals : list Obj;
  activities : list Obj
}.

(** What [uuidv4()] and [new Date().toISOString().split('T')[0]] return
    during one call. *)
Record Env := mkEnv { uuid : string; today : string }.

Inductive Outcome (A : Type) :=
| Ret (a : A)
| Throw (msg : string).
Arguments Ret {A} a.
Arguments Throw {A} msg.

Definition M (A : Type) := Store -> Outcome A * Store.

Definition ret {A} (a : A) : M A := fun s => (Ret a, s).
Definition throw {A} (msg : string) : M A := fun s => (Throw msg, s).
Definition bindM {A B} (m : M A) (k : A -> M B) : M B :=
  fun s => match m s with
           | (Ret a, s') => k a s'
           | (Throw e, s') => (Throw e, s')
           end.
Definition getS : M Store := fun s => (Ret s, s).
Definition putS (s : Store) : M unit := fun _ => (Ret tt, s).

Notation "x <- m ;; k" := (bindM m (fun x => k))
  (at level 100, m at next level, right associativity).

(** ** Array helpers *)

(** [arr.findIndex(p)]: the first index satisfying [p], or -1. *)
Fixpoint findIndex (p : Obj -> bool) (l : list Obj) : Z :=
  match l with
  | [] => -1
  | x :: t => if p x then 0 else
                let i := findIndex p t in if i =? -1 then -1 else i + 1
  end.

(** [arr.find(p)]: the first element satisfying [p] ([None] is
    [undefined]). *)
Fixpoint find (p : Obj -> bool) (l : list Obj) : option Obj :=
  match l with
  | [] => None
  | x :: t => if p x then Some x else find p t
  end.

(** [arr.splice(i, 1)] for an index inside the array. *)
Fixpoint splice1 (i : nat) (l : list Obj) : list Obj :=
  match l, i with
  | [], _ => []
  | _ :: t, O => t
  | x :: t, S j => x :: splice1 j t
  end.

(** [arr[i] = v] for an index inside the array. *)
Fixpoint set_nth (i : nat) (v : Obj) (l : list Obj) : list Obj :=
  match l, i with
  | [], _ => []
  | _ :: t, O => v :: t
  | x :: t, S j => x :: set_nth j v t
  end.

(** ** The CRUD functions

    The three entities with CRUD functions share one code shape; they
    differ in the array, the error message and the creation defaults. *)

Inductive Entity := ECustomer | EContact | EDeal.

Definition table (e : Entity) (s : Store) : list Obj :=
  match e with
  | ECustomer => customers s
  | EContact => contacts s
  | EDeal => deals s
  end.

Definition set_table (e : Entity) (l : list Obj) (s : Store) : Store :=
  match e with
  | ECustomer => mkStore l (contacts s) (deals s) (activities s)
  | EContact => mkStore (customers s) l (deals s) (activities s)
  | EDeal => mkStore (customers s) (contacts s) l (activities s)
  end.

Definition not_found (e : Entity) : string :=
  match e with
  | ECustomer => "Customer not found"
  | EContact => "Contact not found"
  | EDeal => "Deal not found"
  end.

Definition has_id (id : JsVal) (o : Obj) : bool := strict_eq (js_get o "id") id.

(** [getX(id)]: [xs.find(x => x.id === id)]. *)
Definition get_entity (e : Entity) (id : JsVal) : M (option Obj) :=
  s <- getS ;; ret (find (has_id id) (table e s)).

(** The object literal of [createX]:
    [{ id: uuidv4(), ...data, <defaults>, createdAt: today, updatedAt: today }]. *)
Definition new_record (e : Entity) (env : Env) (data : Obj) : Obj :=
  let base := data ∪ {[ "id" := VStr (uuid env) ]} in
  let with_defaults :=
    match e with
    | ECustomer =>
        <["tier" := VStr "startup"]> (<["healthScore" := VNum 80]>
          (<["status" := VStr "active"]> base))
    | EContact | EDeal => <["status" := VStr "active"]> base
    end in
  <["updatedAt" := VStr (today env)]>
    (<["createdAt" := VStr (today env)]> with_defaults).

(** [createX(data)]: build the record, [push] it, return it. *)
Definition create_entity (e : Entity) (env : Env) (data : Obj) : M Obj :=
  s <- getS ;;
  let r := new_record e env data in
  _ <- putS (set_table e (table e s ++ [r]) s) ;;
  ret r.

(** [updateX(id, data)]. *)
Definition update_entity (e : Entity) (env : Env) (id : JsVal) (data : Obj)
  : M Obj :=
  s <- getS ;;
  let l := table e s in
  let index := findIndex (has_id id) l in
  if index =? -1 then throw (not_found e) else
  let old := match nth_error l (Z.to_nat index) with
             | Some o => o | None => ∅ end in
  let r := <["updatedAt" := VStr (today env)]> (data ∪ old) in
  _ <- putS (set_table e (set_nth (Z.to_nat index) r l) s) ;;
  ret r.

(** The acknowledgement [{ success: true }]. *)
Definition success_obj : Obj := {[ "success" := VBool true ]}.

(** [deleteX(id)]. *)
Definition delete_entity (e : Entity) (id : JsVal) : M Obj :=
  s <- getS ;;
  let l := table e s in
  let index := findIndex (has_id id) l in
  if index =? -1 then throw (not_found e) else
  _ <- putS (set_table e (splice1 (Z.to_nat index) l) s) ;;
  ret success_obj.

Definition getCustomer := get_entity ECustomer.
Definition createCustomer := create_entity ECustomer.
Definition updateCustomer := update_entity ECustomer.
Definition deleteCustomer := delete_entity ECustomer.
Definition getContact := get_entity EContact.
Definition createContact := create_entity EContact.
Definition updateContact := update_entity EContact.
Definition deleteContact := delete_entity EContact.
Definition getDeal := get_entity EDeal.
Definition createDeal := create_entity EDeal.
Definition updateDeal := update_entity EDeal.
Definition deleteDeal := delete_entity EDeal.

(** ** Numbers of the dashboard

    Record fields hold integer-valued numbers ([VNum]) or [NaN].  The
    aggregation's [+] is JavaScript's numeric addition on non-string
    primitives ([null] is 0, [true] is 1, [undefined] is NaN).  A string or
    object operand would make [+] concatenate strings: that is outside this
    numeric model, which gives NaN there; the theorems about sums assume
    number-valued fields, as the data model types them. *)

Definition to_int (v : JsVal) : option Z :=
  match v with
  | VNum z => Some z
  | VNull => Some 0
  | VBool b => Some (if b then 1 else 0)
  | _ => None
  end.

Definition js_plus (a b : JsVal) : JsVal :=
  match to_int a, to_int b with
  | Some x, Some y => VNum (x + y)
  | _, _ => VNaN
  end.

(** [v > 0]. *)
Definition gt_zero (v : JsVal) : bool :=
  match to_int v with Some z => 0 <? z | None => false end.

(** Truthiness and [a || b]. *)
Definition truthy (v : JsVal) : bool :=
  match v with
  | VUndef | VNull | VNaN => false
  | VBool b => b
  | VNum z => negb (z =? 0)
  | VStr s => negb (String.eqb s "")
  | VRef _ => true
  end.

Definition js_or (a b : JsVal) : JsVal := if truthy a then a else b.

(** Results of [/], [*] and [Math.round]: a rational, NaN or an infinity
    (the sign of a zero is not modelled). *)
Inductive Num := NFin (q : Q) | NNaN | NPosInf | NNegInf.

Definition num_of (v : JsVal) : Num :=
  match to_int v with Some z => NFin (inject_Z z) | None => NNaN end.

Definition num_div (a b : Num) : Num :=
  match a, b with
  | NNaN, _ | _, NNaN => NNaN
  | NFin x, NFin y =>
      if Qeq_bool y 0 then
        (if Qeq_bool x 0 then NNaN else if negb (Qle_bool x 0) then NPosInf else NNegInf)
      else NFin (x / y)
  | NFin _, _ => NFin 0
  | NPosInf, NFin y => if negb (Qle_bool 0 y) then NNegInf else NPosInf
  | NNegInf, NFin y => if negb (Qle_bool 0 y) then NPosInf else NNegInf
  | _, _ => NNaN
  end.

Definition num_mul (a b : Num) : Num :=
  match a, b with
  | NNaN, _ | _, NNaN => NNaN
  | NFin x, NFin y => NFin (x * y)
  | NFin x, inf | inf, NFin x =>
      if Qeq_bool x 0 then NNaN
      else if negb (Qle_bool x 0) then inf
      else match inf with NPosInf => NNegInf | NNegInf => NPosInf | i => i end
  | NPosInf, NPosInf | NNegInf, NNegInf => NPosInf
  | _, _ => NNegInf
  end.

(** [Math.round]: the nearest integer, halves rounded up. *)
Definition math_round (a : Num) : Num :=
  match a with
  | NFin q => NFin (inject_Z (Qfloor (q + (1 # 2))))
  | n => n
  end.

Definition ZN (z : Z) : Num := NFin (inject_Z z).

(** ** Array helpers of the aggregation *)

(** [xs.reduce((sum, x) => sum + f(x), 0)]. *)
Definition sum_by (f : Obj -> JsVal) (l : list Obj) : JsVal :=
  fold_left (fun acc x => js_plus acc (f x)) l (VNum 0).

Definition has_status (st : string) (o : Obj) : bool :=
  strict_eq (js_get o "status") (VStr st).

Definition count (p : Obj -> bool) (l : list Obj) : Z :=
  Z.of_nat (length (List.filter p l)).

(** The comparator [(a, b) => b.dealValue - a.dealValue] is positive when
    [b] has the larger [dealValue]. *)
Definition cmp_pos (a b : Obj) : bool :=
  match to_int (js_get a "dealValue"), to_int (js_get b "dealValue") with
  | Some x, Some y => 0 <? y - x
  | _, _ => false
  end.

(** [Array.prototype.sort] is stable; on a consistent comparator a stable
    sort has a single result, which insertion sort computes: an element is
    placed after the sorted later ones exactly while the comparator says it
    belongs after them. *)
Fixpoint insert_sorted (x : Obj) (l : list Obj) : list Obj :=
  match l with
  | [] => [x]
  | h :: t => if cmp_pos x h then h :: insert_sorted x t else x :: h :: t
  end.

Fixpoint js_sort (l : list Obj) : list Obj :=
  match l with
  | [] => []
  | x :: t => insert_sorted x (js_sort t)
  end.

(** ** [getDashboardStats] *)

Record Pipeline := mkPipeline {
  qualification : list Obj;
  proposal : list Obj;
  negotiation : list Obj
}.

Record DashboardStats := mkStats {
  totalCustomers : Z;
  activeCustomers : Z;
  totalContacts : Z;
  totalDeals : Z;
  totalDealValue : JsVal;
  activeDeals : Z;
  wonDeals : Z;
  lostDeals : Z;
  wonDealValue : JsVal;
  totalRevenue : JsVal;
  avgHealthScore : Num;
  conversionRate : Num;
  pipeline : Pipeline;
  monthlyRevenue : list (string * Z);
  topCustomers : list Obj;
  recentActivities : list Obj
}.

(** The deals of [customer] with status ['won']. *)
Definition won_deals_of (ds : list Obj) (customer : Obj) : list Obj :=
  List.filter (fun d => strict_eq (js_get d "customerId") (js_get customer "id")
                   && has_status "won" d) ds.

(** [customer.dealValue] as computed in the [map] of [topCustomers]. *)
Definition deal_value (ds : list Obj) (customer : Obj) : JsVal :=
  sum_by (fun d => js_get d "value") (won_deals_of ds customer).

Definition top_customers (cs ds : list Obj) : list Obj :=
  firstn 5
    (js_sort
       (List.filter (fun c => gt_zero (js_get c "dealValue"))
          (map (fun customer =>
                  <["dealValue" := deal_value ds customer]> customer) cs))).

Definition in_stage (st : string) (d : Obj) : bool :=
  strict_eq (js_get d "stage") (VStr st) && has_status "active" d.

Definition dashboard_stats (s : Store) : DashboardStats :=
  let cs := customers s in
  let ds := deals s in
  let totalCustomers := Z.of_nat (length cs) in
  let totalDeals := Z.of_nat (length ds) in
  let wonDeals := count (has_status "won") ds in
  let lostDeals := count (has_status "lost") ds in
  let avg := num_div
               (num_of (sum_by (fun c => js_or (js_get c "healthScore") (VNum 0)) cs))
               (ZN totalCustomers) in
  mkStats
    totalCustomers
    (count (has_status "active") cs)
    (Z.of_nat (length (contacts s)))
    totalDeals
    (sum_by (fun d => js_get d "value") (List.filter (has_status "active") ds))
    (count (has_status "active") ds)
    wonDeals
    lostDeals
    (sum_by (fun d => js_get d "value") (List.filter (has_status "won") ds))
    (sum_by (fun c => js_or (js_get c "revenue") (VNum 0)) cs)
    (math_round avg)
    (if 0 <? totalDeals
     then num_mul (num_div (ZN wonDeals) (ZN (wonDeals + lostDeals))) (ZN 100)
     else ZN 0)
    (mkPipeline (List.filter (in_stage "qualification") ds)
                (List.filter (in_stage "proposal") ds)
                (List.filter (in_stage "negotiation") ds))
    [("Oct", 1850000); ("Nov", 2100000); ("Dec", 2450000);
     ("Jan", 2680000); ("Feb", 3185000); ("Mar", 3520000)]%string
    (top_customers cs ds)
    (firstn 5 (activities s)).

Definition getDashboardStats : M DashboardStats :=
  s <- getS ;; ret (dashboard_stats s).

(** ** Concrete stores *)

Definition obj (l : list (string * JsVal)) : Obj := list_to_map l.

Definition custA : Obj :=
  obj [("id", VStr "A"); ("name", VStr "Acme"); ("status", VStr "active");
       ("healthScore", VNum 90); ("revenue", VNum 1000)].
Definition custB : Obj :=
  obj [("id", VStr "B"); ("name", VStr "Beta"); ("status", VStr "active");
       ("healthScore", VNum 75)].
Definition deal1 : Obj :=
  obj [("id", VStr "d1"); ("customerId", VStr "A"); ("value", VNum 60000);
       ("status", VStr "won"); ("stage", VStr "closed-won");
       ("title", VStr "Platform")].
Definition deal2 : Obj :=
  obj [("id", VStr "d2"); ("customerId", VStr "B"); ("value", VNum 50000);
       ("status", VStr "won"); ("stage", VStr "closed-won")].
Definition deal3 : Obj :=
  obj [("id", VStr "d3"); ("customerId", VStr "A"); ("value", VNum 40000);
       ("status", VStr "won"); ("stage", VStr "closed-won")].
Definition deal4 : Obj :=
  obj [("id", VStr "d4"); ("customerId", VStr "B"); ("value", VNum 7000);
       ("status", VStr "active"); ("stage", VStr "proposal")].
Definition contact1 : Obj :=
  obj [("id", VStr "k1"); ("customerId", VStr "A")].

Definition seed : Store :=
  mkStore [custA; custB] [contact1] [deal1; deal2; deal3; deal4] [].

(** Only active deals: none won, none lost. *)
Definition active_only : Store := mkStore [custA] [] [deal4] [].

Definition env0 : Env := mkEnv "6f1c-uuid" "2024-03-20".

(** ** Helper lemmas *)

Lemma findIndex_absent (p : Obj -> bool) (l : list Obj) :
  Forall (fun o => p o = false) l -> findIndex p l = -1.
Proof.
  induction 1 as [|x t Hx _ IH]; [reflexivity|].
  simpl. rewrite Hx, IH. reflexivity.
Qed.

Lemma table_set_table (e : Entity) (l : list Obj) (s : Store) :
  table e (set_table e l s) = l.
Proof. destruct e; reflexivity. Qed.

(** ** C1: the guard of [conversionRate] *)

(** Claim C1: [conversionRate] should be 0 whenever no deal is won or lost.
    The source guards on [totalDeals > 0] and divides by
    [wonDeals + lostDeals]: on a store whose only deal is active the
    result is [0 / 0 * 100], that is NaN. *)
Lemma conversionRate_active_only_NaN :
  conversionRate (dashboard_stats active_only) = NNaN
  /\ wonDeals (dashboard_stats active_only) + lostDeals (dashboard_stats active_only) = 0.
Proof. split; vm_compute; reflexivity. Qed.

(** ** C2: [avgHealthScore] on an empty customer list *)

(** Claim C2: with no customers, [avgHealthScore] should be 0.  The source
    divides the sum by [totalCustomers] without a guard: for every store
    with an empty [customers] array the result is [Math.round(0 / 0)], NaN. *)
Lemma avgHealthScore_no_customers_NaN (ks ds acts : list Obj) :
  avgHealthScore (dashboard_stats (mkStore [] ks ds acts)) = NNaN.
Proof. reflexivity. Qed.

(** ** C3: update and delete on an absent id *)

(** Claim C3: for every entity, when no record of its array has [id === id],
    [update] and [delete] throw the entity's fixed not-found message and
    leave the whole store as it was. *)
Theorem update_delete_absent_not_found (e : Entity) (env : Env) (id : JsVal)
    (data : Obj) (s : Store) :
  Forall (fun o => has_id id o = false) (table e s) ->
  update_entity e env id data s = (Throw (not_found e), s)
  /\ delete_entity e id s = (Throw (not_found e), s).
Proof.
  intros Habs.
  unfold update_entity, delete_entity, bindM, getS, throw; simpl.
  rewrite (findIndex_absent _ _ Habs). split; reflexivity.
Qed.

Lemma update_delete_absent_not_found_witness :
  Forall (fun o => has_id (VStr "zz") o = false) (table ECustomer seed)
  /\ update_entity ECustomer env0 (VStr "zz") (obj [("name", VStr "X")]) seed
     = (Throw (not_found ECustomer), seed)
  /\ delete_entity ECustomer (VStr "zz") seed = (Throw (not_found ECustomer), seed).
Proof.
  assert (H : Forall (fun o => has_id (VStr "zz") o = false) (table ECustomer seed))
    by (repeat constructor).
  split; [exact H|].
  exact (update_delete_absent_not_found ECustomer env0 (VStr "zz")
           (obj [("name", VStr "X")]) seed H).
Defined.

(** The messages are the source's literals. *)
Lemma not_found_messages :
  not_found ECustomer = "Customer not found"%string
  /\ not_found EContact = "Contact not found"%string
  /\ not_found EDeal = "Deal not found"%string.
Proof. repeat split. Qed.

(** ** C9: no cascade on [deleteCustomer] *)

(** Claim C9: [deleteCustomer id] changes only the [customers] array: the
    [contacts], [deals] and [activities] arrays are the same afterwards,
    including the records whose [customerId] is [id]. *)
Theorem deleteCustomer_no_cascade (id : JsVal) (s : Store) :
  let s' := snd (deleteCustomer id s) in
  contacts s' = contacts s /\ deals s' = deals s /\ activities s' = activities s.
Proof.
  unfold deleteCustomer, delete_entity, bindM, getS, putS, ret, throw; simpl.
  destruct (findIndex (has_id id) (customers s) =? -1); simpl; auto.
Qed.

(** ** C10: the creation defaults of [createCustomer] *)

(** Claim C10: whatever [customerData] holds, the record [createCustomer]
    returns, which is also the one it appends to [customers], has status
    ['active'], healthScore 80, tier ['startup'] and createdAt and updatedAt
    equal to today's date. *)
Theorem createCustomer_defaults (env : Env) (data : Obj) (s : Store) :
  exists r, createCustomer env data s
            = (Ret r, set_table ECustomer (customers s ++ [r]) s)
  /\ r !! "status" = Some (VStr "active")
  /\ r !! "healthScore" = Some (VNum 80)
  /\ r !! "tier" = Some (VStr "startup")
  /\ r !! "createdAt" = Some (VStr (today env))
  /\ r !! "updatedAt" = Some (VStr (today env)).
Proof.
  exists (new_record ECustomer env data).
  split; [reflexivity|].
  unfold new_record.
  repeat split; simplify_map_eq; reflexivity.
Qed.

(** ** Locating a present id *)

Lemma strict_eq_true (a b : JsVal) : strict_eq a b = true -> a = b.
Proof.
  destruct a, b; simpl; try discriminate; intros H; try reflexivity.
  - apply Bool.eqb_prop in H. now subst.
  - apply Z.eqb_eq in H. now subst.
  - apply String.eqb_eq in H. now subst.
  - apply Pos.eqb_eq in H. now subst.
Qed.

Lemma has_id_true (id : JsVal) (o : Obj) : has_id id o = true -> js_get o "id" = id.
Proof. apply strict_eq_true. Qed.

Lemma find_absent (p : Obj -> bool) (l : list Obj) :
  Forall (fun o => p o = false) l -> find p l = None.
Proof.
  induction 1 as [|x t Hx _ IH]; [reflexivity|]. simpl. now rewrite Hx.
Qed.

(** [findIndex] finds the first record satisfying [p]. *)
Lemma findIndex_split (p : Obj -> bool) (l : list Obj) (o : Obj) :
  In o l -> p o = true ->
  exists pre x post, l = pre ++ x :: post
    /\ Forall (fun y => p y = false) pre /\ p x = true
    /\ findIndex p l = Z.of_nat (length pre).
Proof.
  induction l as [|a t IH]; intros Hin Ho; [destruct Hin|].
  destruct (p a) eqn:Ha.
  - exists [], a, t. simpl. rewrite Ha. auto.
  - destruct Hin as [<-|Hin]; [congruence|].
    destruct (IH Hin Ho) as (pre & x & post & -> & Hpre & Hx & Hfi).
    exists (a :: pre), x, post. repeat split; auto.
    simpl. rewrite Ha, Hfi.
    destruct (Z.eqb_spec (Z.of_nat (length pre)) (-1)); [lia|]. lia.
Qed.

Lemma splice1_app (pre post : list Obj) (x : Obj) :
  splice1 (length pre) (pre ++ x :: post) = pre ++ post.
Proof. induction pre as [|a pre IH]; simpl; congruence. Qed.

Lemma set_nth_insert (i : nat) (v : Obj) (l : list Obj) :
  set_nth i v l = <[i := v]> l.
Proof.
  revert i. induction l as [|a t IH]; intros [|i]; simpl; try reflexivity.
  now rewrite IH.
Qed.

Lemma nth_error_mid (pre post : list Obj) (x : Obj) :
  nth_error (pre ++ x :: post) (length pre) = Some x.
Proof. induction pre; simpl; auto. Qed.

Lemma index_not_minus_one (n : nat) : (Z.of_nat n =? -1) = false.
Proof. apply Z.eqb_neq. lia. Qed.

(** With unique ids, no record after the first match has the id. *)
Lemma unique_id_rest (id : JsVal) (pre post : list Obj) (x : Obj) :
  NoDup (map (fun o => js_get o "id") (pre ++ x :: post)) ->
  has_id id x = true ->
  Forall (fun y => has_id id y = false) post.
Proof.
  intros Hnd Hx. apply Forall_forall. intros y Hy.
  destruct (has_id id y) eqn:Hyid; [|reflexivity]. exfalso.
  rewrite map_app in Hnd. apply NoDup_app in Hnd as (_ & _ & Hnd).
  simpl in Hnd. apply NoDup_cons in Hnd as [Hnin _].
  apply Hnin. apply has_id_true in Hx, Hyid. rewrite Hx, <- Hyid.
  apply list_elem_of_In, (in_map (fun o => js_get o "id")).
  now apply list_elem_of_In.
Qed.

(** ** C7: [delete] on a present id *)

(** Claim C7: in an array whose ids are pairwise distinct, deleting a
    present id answers [{ success: true }], removes exactly one record, and
    a following [get] of that id gives [undefined]. *)
Theorem delete_present (e : Entity) (id : JsVal) (o : Obj) (s : Store) :
  NoDup (map (fun r => js_get r "id") (table e s)) ->
  In o (table e s) -> has_id id o = true ->
  exists s', delete_entity e id s = (Ret success_obj, s')
    /\ S (length (table e s')) = length (table e s)
    /\ fst (get_entity e id s') = Ret None.
Proof.
  intros Hnd Hin Hid.
  destruct (findIndex_split (has_id id) _ o Hin Hid)
    as (pre & x & post & Hl & Hpre & Hx & Hfi).
  unfold delete_entity, bindM, getS, putS, ret; simpl.
  rewrite Hfi, index_not_minus_one, Nat2Z.id.
  eexists; split; [reflexivity|].
  rewrite table_set_table, Hl, splice1_app.
  split.
  - rewrite !length_app. simpl. lia.
  - unfold get_entity, bindM, getS, ret; simpl.
    f_equal.
    apply find_absent, Forall_app; split; [exact Hpre|].
    rewrite Hl in Hnd. exact (unique_id_rest id pre post x Hnd Hx).
Qed.

Global Instance JsVal_eq_dec : EqDecision JsVal.
Proof. solve_decision. Defined.

Lemma delete_present_witness :
  NoDup (map (fun r => js_get r "id") (table ECustomer seed))
  /\ In custA (table ECustomer seed) /\ has_id (VStr "A") custA = true
  /\ exists s', delete_entity ECustomer (VStr "A") seed = (Ret success_obj, s')
       /\ S (length (table ECustomer s')) = length (table ECustomer seed)
       /\ fst (get_entity ECustomer (VStr "A") s') = Ret None.
Proof.
  assert (Hnd : NoDup (map (fun r => js_get r "id") (table ECustomer seed)))
    by (vm_compute; apply (bool_decide_unpack _); vm_compute; reflexivity).
  assert (Hin : In custA (table ECustomer seed)) by (left; reflexivity).
  assert (Hid : has_id (VStr "A") custA = true) by reflexivity.
  split; [exact Hnd|]. split; [exact Hin|]. split; [exact Hid|].
  exact (delete_present ECustomer (VStr "A") custA seed Hnd Hin Hid).
Defined.

(** ** C8: [updateDeal] is a shallow merge *)

(** Claim C8: updating a present deal replaces exactly the supplied
    top-level properties (a nested object is the supplied reference, not a
    merge), keeps every other property of the deal, sets [updatedAt] to
    today's date, and leaves every other deal and every other array as
    they were. *)
Theorem updateDeal_shallow_merge (env : Env) (id : JsVal) (partial : Obj)
    (o : Obj) (s : Store) :
  In o (deals s) -> has_id id o = true ->
  exists i old r s',
    deals s !! i = Some old /\ has_id id old = true
    /\ updateDeal env id partial s = (Ret r, s')
    /\ deals s' = <[i := r]> (deals s)
    /\ customers s' = customers s /\ contacts s' = contacts s
    /\ activities s' = activities s
    /\ r !! "updatedAt" = Some (VStr (today env))
    /\ (forall k, k <> "updatedAt"%string ->
          r !! k = match partial !! k with Some v => Some v | None => old !! k end)
    /\ (forall j, j <> i -> deals s' !! j = deals s !! j)
    /\ length (deals s') = length (deals s).
Proof.
  intros Hin Hid.
  destruct (findIndex_split (has_id id) _ o Hin Hid)
    as (pre & x & post & Hl & Hpre & Hx & Hfi).
  set (r := <["updatedAt" := VStr (today env)]> (partial ∪ x)).
  exists (length pre), x, r,
    (set_table EDeal (<[length pre := r]> (deals s)) s).
  assert (Hlk : deals s !! length pre = Some x)
    by (rewrite Hl; apply list_lookup_middle; reflexivity).
  split; [exact Hlk|]. split; [exact Hx|].
  split.
  { unfold updateDeal, update_entity, bindM, getS, putS, ret; simpl.
    rewrite Hfi, index_not_minus_one, Nat2Z.id, Hl, nth_error_mid,
      set_nth_insert, <- Hl. reflexivity. }
  simpl. repeat split.
  - unfold r. apply lookup_insert_eq.
  - intros k Hk. unfold r. rewrite lookup_insert_ne by congruence.
    rewrite lookup_union. destruct (partial !! k), (x !! k); reflexivity.
  - intros j Hj. apply list_lookup_insert_ne. congruence.
  - apply length_insert.
Qed.

Lemma updateDeal_shallow_merge_witness :
  In deal1 (deals seed) /\ has_id (VStr "d1") deal1 = true
  /\ exists i old r s',
    deals seed !! i = Some old /\ has_id (VStr "d1") old = true
    /\ updateDeal env0 (VStr "d1")
         (obj [("stage", VStr "closed-lost"); ("status", VStr "lost")]) seed
       = (Ret r, s')
    /\ deals s' = <[i := r]> (deals seed)
    /\ customers s' = customers seed /\ contacts s' = contacts seed
    /\ activities s' = activities seed
    /\ r !! "updatedAt" = Some (VStr (today env0))
    /\ (forall k, k <> "updatedAt"%string ->
          r !! k = match (obj [("stage", VStr "closed-lost");
                                ("status", VStr "lost")]) !! k with
                   | Some v => Some v | None => old !! k end)
    /\ (forall j, j <> i -> deals s' !! j = deals seed !! j)
    /\ length (deals s') = length (deals seed).
Proof.
  assert (Hin : In deal1 (deals seed)) by (left; reflexivity).
  assert (Hid : has_id (VStr "d1") deal1 = true) by reflexivity.
  split; [exact Hin|]. split; [exact Hid|].
  exact (updateDeal_shallow_merge env0 (VStr "d1")
           (obj [("stage", VStr "closed-lost"); ("status", VStr "lost")])
           deal1 seed Hin Hid).
Defined.

(** ** C4 and C5: a caller-supplied [id] wins over the generated one

    [createX] writes [id: uuidv4()] before [...data], and [updateX] spreads
    [...data] over the stored record; an [id] property of [data] therefore
    replaces the generated id on creation and the stored id on update. *)

Definition dup_data : Obj := obj [("id", VStr "A"); ("name", VStr "Dup Co")].

(** Claim C4: [createCustomer] with [{id: 'A', ...}] on a store whose
    customer ids are distinct produces two customers with id ['A'], and
    [updateCustomer('A', {id: 'Z'})] changes the stored id to ['Z']. *)
Lemma create_update_id_override :
  NoDup (map (fun r => js_get r "id") (customers seed))
  /\ ~ NoDup (map (fun r => js_get r "id")
                (customers (snd (createCustomer env0 dup_data seed))))
  /\ exists r s1,
       updateCustomer env0 (VStr "A") (obj [("id", VStr "Z")]) seed = (Ret r, s1)
       /\ nth_error (customers s1) 0 = Some r
       /\ js_get r "id" = VStr "Z".
Proof.
  split; [apply (bool_decide_unpack _); vm_compute; reflexivity|].
  split.
  { intros Hnd. pose proof (bool_decide_eq_true_2 _ Hnd) as Hb.
    vm_compute in Hb. discriminate. }
  eexists; eexists. split; [vm_compute; reflexivity|].
  split; vm_compute; reflexivity.
Qed.

(** Claim C5: [createCustomer({id: 'A', name: 'Dup Co'})] returns a record
    whose id ['A'] was already in the store, and [getCustomer('A')] right
    after it returns the older customer (name ['Acme']), not the created
    one (name ['Dup Co']). *)
Lemma create_then_get_wrong_record :
  exists r s1,
    createCustomer env0 dup_data seed = (Ret r, s1)
    /\ js_get r "id" = VStr "A"
    /\ fst (getCustomer (VStr "A") seed) = Ret (Some custA)
    /\ fst (getCustomer (VStr "A") s1) = Ret (Some custA)
    /\ js_get custA "name" = VStr "Acme"
    /\ js_get r "name" = VStr "Dup Co".
Proof.
  eexists; eexists. split.
  { unfold createCustomer, create_entity, bindM, getS, putS, ret; simpl.
    reflexivity. }
  repeat split; vm_compute; reflexivity.
Qed.

(** Without an [id] in [data] and with an id not yet in the array, the
    record [get] finds right after [create] is the created one. *)
Lemma create_then_get_fresh (e : Entity) (env : Env) (data : Obj) (s : Store) :
  data !! "id" = None ->
  Forall (fun o => has_id (VStr (uuid env)) o = false) (table e s) ->
  exists r s1, create_entity e env data s = (Ret r, s1)
    /\ fst (get_entity e (VStr (uuid env)) s1) = Ret (Some r).
Proof.
  intros Hnone Hfresh.
  exists (new_record e env data),
    (set_table e (table e s ++ [new_record e env data]) s).
  split; [reflexivity|].
  unfold get_entity, bindM, getS, ret; simpl. rewrite table_set_table.
  induction Hfresh as [|x t Hx _ IH]; simpl.
  - assert (Hid : has_id (VStr (uuid env)) (new_record e env data) = true).
    { unfold has_id, js_get, new_record.
      destruct e; simplify_map_eq; apply String.eqb_refl. }
    rewrite Hid. reflexivity.
  - rewrite Hx. exact IH.
Qed.

(** ** C6: [topCustomers] *)

(** The number a deal's [value] holds. *)
Definition value_z (d : Obj) : Z :=
  match js_get d "value" with VNum z => z | _ => 0 end.

(** The sum of the values of the customer's won deals. *)
Definition won_sum (ds : list Obj) (c : Obj) : Z :=
  fold_right (fun d acc => value_z d + acc) 0 (won_deals_of ds c).

(** The [dealValue] a [topCustomers] entry carries, as a number. *)
Definition dv (t : Obj) : Z :=
  match to_int (js_get t "dealValue") with Some z => z | None => 0 end.

Definition numeric_value (d : Obj) : Prop := exists z, js_get d "value" = VNum z.

Definition numeric_dv (t : Obj) : Prop := exists z, js_get t "dealValue" = VNum z.

Definition desc (a b : Obj) : Prop := dv b <= dv a.

Lemma sum_by_value (l : list Obj) (a : Z) :
  Forall numeric_value l ->
  fold_left (fun acc x => js_plus acc (js_get x "value")) l (VNum a)
  = VNum (a + fold_right (fun d acc => value_z d + acc) 0 l).
Proof.
  intros Hl. revert a.
  induction Hl as [|x t [z Hz] _ IH]; intros a; simpl.
  - f_equal. lia.
  - unfold js_plus at 2. rewrite Hz. simpl. rewrite IH.
    unfold value_z. rewrite Hz. f_equal. lia.
Qed.

Lemma deal_value_sum (ds : list Obj) (c : Obj) :
  Forall numeric_value ds -> deal_value ds c = VNum (won_sum ds c).
Proof.
  intros Hds. unfold deal_value, sum_by, won_sum.
  rewrite sum_by_value; [reflexivity|].
  induction Hds as [|d t Hd _ IH]; simpl; [constructor|].
  destruct (_ && _); auto.
Qed.

Lemma cmp_pos_lt (x h : Obj) :
  numeric_dv x -> numeric_dv h -> cmp_pos x h = (dv x <? dv h).
Proof.
  intros [zx Hx] [zh Hh]. unfold cmp_pos, dv. rewrite Hx, Hh. simpl.
  destruct (Z.ltb_spec 0 (zh - zx)), (Z.ltb_spec zx zh); auto; lia.
Qed.

Lemma insert_sorted_Forall (P : Obj -> Prop) (x : Obj) (l : list Obj) :
  P x -> Forall P l -> Forall P (insert_sorted x l).
Proof.
  intros Hx Hl. induction Hl as [|h t Hh Ht IH]; simpl; [now constructor|].
  destruct (cmp_pos x h); repeat constructor; assumption.
Qed.

Lemma js_sort_Forall (P : Obj -> Prop) (l : list Obj) :
  Forall P l -> Forall P (js_sort l).
Proof.
  induction 1; simpl; [constructor|]. now apply insert_sorted_Forall.
Qed.

Lemma insert_sorted_HdRel (h x : Obj) (l : list Obj) :
  desc h x -> HdRel desc h l -> HdRel desc h (insert_sorted x l).
Proof.
  intros Hhx Hl. destruct l as [|y t]; simpl.
  - constructor. exact Hhx.
  - apply HdRel_inv in Hl.
    destruct (cmp_pos x y); constructor; assumption.
Qed.

Lemma insert_sorted_Sorted (x : Obj) (l : list Obj) :
  numeric_dv x -> Forall numeric_dv l -> Sorted desc l ->
  Sorted desc (insert_sorted x l).
Proof.
  intros Hx Hnum Hs. induction Hs as [|h t Hs IH Hhd]; simpl.
  - repeat constructor.
  - apply Forall_cons in Hnum as [Hh Ht].
    rewrite (cmp_pos_lt x h Hx Hh).
    destruct (Z.ltb_spec (dv x) (dv h)).
    + constructor; [exact (IH Ht)|].
      apply insert_sorted_HdRel; [unfold desc; lia|exact Hhd].
    + constructor; [constructor; assumption|].
      constructor. unfold desc. lia.
Qed.

Lemma js_sort_Sorted (l : list Obj) :
  Forall numeric_dv l -> Sorted desc (js_sort l).
Proof.
  induction 1 as [|x t Hx Ht IH]; simpl; [constructor|].
  apply insert_sorted_Sorted; auto. now apply js_sort_Forall.
Qed.

Lemma take_Sorted {A} (R : A -> A -> Prop) (n : nat) (l : list A) :
  Sorted R l -> Sorted R (take n l).
Proof.
  intros Hs. revert n. induction Hs as [|a t Hs IH Hhd]; intros [|n]; simpl;
    try constructor.
  - apply IH.
  - destruct t as [|b t], n as [|n]; simpl; try constructor.
    now apply HdRel_inv in Hhd.
Qed.

(** Claim C6: when every deal's [value] is a number (as the data model
    has it), [topCustomers] has at most 5 entries; each entry is a customer
    of the store with [dealValue] set to the sum of the values of its won
    deals, that sum is positive, and the entries are in descending order
    of [dealValue]. *)
Theorem topCustomers_spec (s : Store) :
  Forall numeric_value (deals s) ->
  let tc := topCustomers (dashboard_stats s) in
  (length tc <= 5)%nat
  /\ Forall (fun t => exists c, In c (customers s)
               /\ t = <["dealValue" := VNum (won_sum (deals s) c)]> c
               /\ 0 < won_sum (deals s) c) tc
  /\ Sorted desc tc.
Proof.
  intros Hds. simpl. unfold top_customers.
  set (F := List.filter _ _).
  assert (HF : Forall (fun t => exists c, In c (customers s)
               /\ t = <["dealValue" := VNum (won_sum (deals s) c)]> c
               /\ 0 < won_sum (deals s) c) F).
  { unfold F. induction (customers s) as [|c cs IH]; simpl; [constructor|].
    rewrite (deal_value_sum _ c Hds).
    destruct (gt_zero _) eqn:Hgt.
    - constructor.
      + exists c. split; [left; reflexivity|]. split; [reflexivity|].
        unfold gt_zero, js_get in Hgt. rewrite lookup_insert_eq in Hgt.
        simpl in Hgt. lia.
      + eapply Forall_impl; [exact IH|].
        intros t (c' & Hin & Heq & Hpos). exists c'. auto.
    - eapply Forall_impl; [exact IH|].
      intros t (c' & Hin & Heq & Hpos). exists c'. auto. }
  split; [|split].
  - rewrite length_take. lia.
  - apply Forall_take, js_sort_Forall, HF.
  - apply take_Sorted, js_sort_Sorted.
    eapply Forall_impl; [exact HF|].
    intros t (c & _ & -> & _). exists (won_sum (deals s) c).
    unfold js_get. rewrite lookup_insert_eq. reflexivity.
Qed.

Lemma topCustomers_spec_witness :
  Forall numeric_value (deals seed)
  /\ (length (topCustomers (dashboard_stats seed)) <= 5)%nat
  /\ Forall (fun t => exists c, In c (customers seed)
               /\ t = <["dealValue" := VNum (won_sum (deals seed) c)]> c
               /\ 0 < won_sum (deals seed) c) (topCustomers (dashboard_stats seed))
  /\ Sorted desc (topCustomers (dashboard_stats seed)).
Proof.
  assert (H : Forall numeric_value (deals seed)).
  { repeat constructor; eexists; reflexivity. }
  split; [exact H|]. exact (topCustomers_spec seed H).
Defined.

(** Scenario 6 of the spec: won deals of 100000 for [A] and 50000 for [B]
    give [topCustomers = [A, B]] with those [dealValue]s. *)
Example topCustomers_seed :
  map (fun t => (js_get t "id", js_get t "dealValue")) (topCustomers (dashboard_stats seed))
  = [(VStr "A", VNum 100000); (VStr "B", VNum 50000)].
Proof. vm_compute. reflexivity. Qed.

(** ** Further properties of the CRUD functions *)

Definition ids (l : list Obj) : list JsVal := map (fun r => js_get r "id") l.

Lemma new_record_id (e : Entity) (env : Env) (data : Obj) :
  data !! "id" = None -> js_get (new_record e env data) "id" = VStr (uuid env).
Proof.
  intros Hnone. unfold js_get, new_record.
  destruct e; simplify_map_eq; reflexivity.
Qed.

Lemma has_id_same (id : JsVal) (a b : Obj) :
  js_get a "id" = js_get b "id" -> has_id id a = has_id id b.
Proof. unfold has_id. intros ->. reflexivity. Qed.

(** The record [update] stores keeps the old id when [data] has none. *)
Lemma merged_id (env : Env) (data old : Obj) :
  data !! "id" = None ->
  js_get (<["updatedAt" := VStr (today env)]> (data ∪ old)) "id" = js_get old "id".
Proof.
  intros Hnone. unfold js_get.
  rewrite lookup_insert_ne by discriminate. rewrite lookup_union_r by exact Hnone.
  reflexivity.
Qed.

Lemma table_set_table_ne (e e' : Entity) (l : list Obj) (s : Store) :
  e' <> e -> table e' (set_table e l s) = table e' s.
Proof. destruct e, e'; simpl; congruence. Qed.

Lemma activities_set_table (e : Entity) (l : list Obj) (s : Store) :
  activities (set_table e l s) = activities s.
Proof. destruct e; reflexivity. Qed.

(** [update] on a present id, with [data] carrying no [id]: a following
    [get] of the id returns the record [update] returned; the array keeps
    its length and the other arrays are untouched. *)
Theorem update_then_get (e : Entity) (env : Env) (id : JsVal) (data o : Obj)
    (s : Store) :
  In o (table e s) -> has_id id o = true -> data !! "id" = None ->
  exists r s', update_entity e env id data s = (Ret r, s')
    /\ fst (get_entity e id s') = Ret (Some r)
    /\ length (table e s') = length (table e s)
    /\ (forall e', e' <> e -> table e' s' = table e' s)
    /\ activities s' = activities s.
Proof.
  intros Hin Hid Hnone.
  destruct (findIndex_split (has_id id) _ o Hin Hid)
    as (pre & x & post & Hl & Hpre & Hx & Hfi).
  set (r := <["updatedAt" := VStr (today env)]> (data ∪ x)).
  exists r, (set_table e (pre ++ r :: post) s).
  split.
  { unfold update_entity, bindM, getS, putS, ret; simpl.
    rewrite Hfi, index_not_minus_one, Nat2Z.id, Hl, nth_error_mid.
    unfold r. f_equal. f_equal. f_equal.
    clear. induction pre as [|a pre IH]; simpl; congruence. }
  split; [|split; [|split]].
  - unfold get_entity, bindM, getS, ret; simpl. rewrite table_set_table.
    f_equal. clear Hl Hfi. induction Hpre as [|y t Hy _ IH]; simpl.
    + assert (Hr : has_id id r = true).
      { rewrite (has_id_same id r x); [exact Hx|]. apply merged_id, Hnone. }
      now rewrite Hr.
    + now rewrite Hy.
  - rewrite table_set_table, Hl, !length_app. reflexivity.
  - intros e' Hne. now apply table_set_table_ne.
  - apply activities_set_table.
Qed.

Lemma update_then_get_witness :
  In custA (table ECustomer seed) /\ has_id (VStr "A") custA = true
  /\ (obj [("name", VStr "Acme Corp")]) !! "id" = None
  /\ exists r s', update_entity ECustomer env0 (VStr "A") (obj [("name", VStr "Acme Corp")]) seed
                  = (Ret r, s')
    /\ fst (get_entity ECustomer (VStr "A") s') = Ret (Some r)
    /\ length (table ECustomer s') = length (table ECustomer seed)
    /\ (forall e', e' <> ECustomer -> table e' s' = table e' seed)
    /\ activities s' = activities seed.
Proof.
  assert (Hin : In custA (table ECustomer seed)) by (left; reflexivity).
  assert (Hid : has_id (VStr "A") custA = true) by reflexivity.
  assert (Hn : (obj [("name", VStr "Acme Corp")]) !! "id" = None) by reflexivity.
  split; [exact Hin|]. split; [exact Hid|]. split; [exact Hn|].
  exact (update_then_get ECustomer env0 (VStr "A") _ custA seed Hin Hid Hn).
Defined.

(** [delete] on a present id removes the first record with that id and
    only it: the records before and after it keep their order, even when
    later records share the id. *)
Theorem delete_removes_first (e : Entity) (id : JsVal) (o : Obj) (s : Store) :
  In o (table e s) -> has_id id o = true ->
  exists pre x post, table e s = pre ++ x :: post
    /\ Forall (fun y => has_id id y = false) pre /\ has_id id x = true
    /\ delete_entity e id s = (Ret success_obj, set_table e (pre ++ post) s).
Proof.
  intros Hin Hid.
  destruct (findIndex_split (has_id id) _ o Hin Hid)
    as (pre & x & post & Hl & Hpre & Hx & Hfi).
  exists pre, x, post. do 3 (split; [assumption|]).
  unfold delete_entity, bindM, getS, putS, ret; simpl.
  rewrite Hfi, index_not_minus_one, Nat2Z.id, Hl, splice1_app. reflexivity.
Qed.

Lemma delete_removes_first_witness :
  In deal1 (table EDeal seed) /\ has_id (VStr "d1") deal1 = true
  /\ exists pre x post, table EDeal seed = pre ++ x :: post
    /\ Forall (fun y => has_id (VStr "d1") y = false) pre /\ has_id (VStr "d1") x = true
    /\ delete_entity EDeal (VStr "d1") seed
       = (Ret success_obj, set_table EDeal (pre ++ post) seed).
Proof.
  assert (Hin : In deal1 (table EDeal seed)) by (left; reflexivity).
  assert (Hid : has_id (VStr "d1") deal1 = true) by reflexivity.
  split; [exact Hin|]. split; [exact Hid|].
  exact (delete_removes_first EDeal (VStr "d1") deal1 seed Hin Hid).
Defined.

(** Unique ids survive a [create] whose [data] has no [id] and whose
    generated id is not in the array yet. *)
Theorem create_keeps_ids_unique (e : Entity) (env : Env) (data : Obj) (s : Store) :
  NoDup (ids (table e s)) -> data !! "id" = None ->
  ~ In (VStr (uuid env)) (ids (table e s)) ->
  NoDup (ids (table e (snd (create_entity e env data s)))).
Proof.
  intros Hnd Hnone Hfresh.
  unfold create_entity, bindM, getS, putS, ret; simpl.
  rewrite table_set_table. unfold ids. rewrite map_app. simpl.
  rewrite new_record_id by exact Hnone.
  apply NoDup_app. split; [exact Hnd|]. split.
  - intros v Hv Hv'. apply list_elem_of_singleton in Hv'. subst v.
    apply Hfresh. now apply list_elem_of_In.
  - apply NoDup_singleton.
Qed.

Lemma create_keeps_ids_unique_witness :
  NoDup (ids (table ECustomer seed)) /\ (obj [("name", VStr "Test Co")]) !! "id" = None
  /\ ~ In (VStr (uuid env0)) (ids (table ECustomer seed))
  /\ NoDup (ids (table ECustomer
               (snd (create_entity ECustomer env0 (obj [("name", VStr "Test Co")]) seed)))).
Proof.
  assert (H1 : NoDup (ids (table ECustomer seed)))
    by (apply (bool_decide_unpack _); vm_compute; reflexivity).
  assert (H2 : (obj [("name", VStr "Test Co")]) !! "id" = None) by reflexivity.
  assert (H3 : ~ In (VStr (uuid env0)) (ids (table ECustomer seed))).
  { simpl. intros [H|[H|[]]]; discriminate. }
  split; [exact H1|]. split; [exact H2|]. split; [exact H3|].
  exact (create_keeps_ids_unique ECustomer env0 _ seed H1 H2 H3).
Defined.

(** An [update] whose [data] has no [id] changes no id of the array, so
    unique ids stay unique. *)
Theorem update_keeps_ids (e : Entity) (env : Env) (id : JsVal) (data : Obj)
    (s : Store) :
  data !! "id" = None ->
  ids (table e (snd (update_entity e env id data s))) = ids (table e s).
Proof.
  intros Hnone.
  unfold update_entity, bindM, getS, putS, ret, throw; simpl.
  destruct (findIndex (has_id id) (table e s) =? -1); [reflexivity|].
  simpl. rewrite table_set_table.
  generalize (Z.to_nat (findIndex (has_id id) (table e s))) as n.
  unfold ids. induction (table e s) as [|a t IH]; intros [|n]; simpl;
    try reflexivity.
  - rewrite merged_id by exact Hnone. reflexivity.
  - f_equal. specialize (IH n). destruct n; simpl in *; exact IH.
Qed.

Lemma update_keeps_ids_witness :
  (obj [("status", VStr "inactive")]) !! "id" = None
  /\ ids (table ECustomer (snd (update_entity ECustomer env0 (VStr "B")
                                 (obj [("status", VStr "inactive")]) seed)))
     = ids (table ECustomer seed).
Proof.
  assert (H : (obj [("status", VStr "inactive")]) !! "id" = None) by reflexivity.
  split; [exact H|]. exact (update_keeps_ids ECustomer env0 (VStr "B") _ seed H).
Defined.

(** A [delete] never makes two records share an id. *)
Theorem delete_keeps_ids_unique (e : Entity) (id : JsVal) (s : Store) :
  NoDup (ids (table e s)) ->
  NoDup (ids (table e (snd (delete_entity e id s)))).
Proof.
  intros Hnd.
  destruct (existsb (has_id id) (table e s)) eqn:Hex.
  - apply existsb_exists in Hex as (o & Hin & Hid).
    destruct (delete_removes_first e id o s Hin Hid)
      as (pre & x & post & Hl & _ & _ & Hdel).
    rewrite Hdel. simpl. rewrite table_set_table.
    rewrite Hl in Hnd. unfold ids in *. rewrite map_app in *. simpl in Hnd.
    apply NoDup_app in Hnd as (H1 & H2 & H3).
    apply NoDup_cons in H3 as [_ H3].
    apply NoDup_app. split; [exact H1|]. split; [|exact H3].
    intros v Hv Hv'. apply (H2 v Hv). now apply list_elem_of_further.
  - assert (Habs : Forall (fun o => has_id id o = false) (table e s)).
    { apply Forall_forall. intros o Ho.
      destruct (has_id id o) eqn:Ho'; [|reflexivity].
      exfalso. assert (Hc : existsb (has_id id) (table e s) = true)
        by (apply existsb_exists; exists o; split; [now apply list_elem_of_In|exact Ho']).
      congruence. }
    unfold delete_entity, bindM, getS, throw; simpl.
    rewrite (findIndex_absent _ _ Habs). exact Hnd.
Qed.

Lemma delete_keeps_ids_unique_witness :
  NoDup (ids (table EDeal seed))
  /\ NoDup (ids (table EDeal (snd (delete_entity EDeal (VStr "d2") seed)))).
Proof.
  assert (H : NoDup (ids (table EDeal seed)))
    by (apply (bool_decide_unpack _); vm_compute; reflexivity).
  split; [exact H|]. exact (delete_keeps_ids_unique EDeal (VStr "d2") seed H).
Defined.

(** ** [getContacts] and [getDeals] *)







(** ** [getActivities] *)

(** A sort by insertion with comparator "[gt a b]: [a] belongs after
    [b]", stable as [Array.prototype.sort]. *)
Fixpoint insert_by (gt : Obj -> Obj -> bool) (x : Obj) (l : list Obj) : list Obj :=
  match l with
  | [] => [x]
  | h :: t => if gt x h then h :: insert_by gt x t else x :: h :: t
  end.

Fixpoint sort_by (gt : Obj -> Obj -> bool) (l : list Obj) : list Obj :=
  match l with
  | [] => []
  | x :: t => insert_by gt x (sort_by gt t)
  end.

(** [arr.slice(0, end)] for an integer [end]: a negative end counts from
    the end of the array. *)
Definition slice0 (e : Z) (l : list Obj) : list Obj :=
  let n := Z.of_nat (length l) in
  take (Z.to_nat (if e <? 0 then Z.max (n + e) 0 else Z.min e n)) l.

Section Activities.

(** The time value of [new Date(v)], [None] for an Invalid Date. *)
Variable date_ms : JsVal -> option Z.

(** The comparator [(a, b) => new Date(b.timestamp) - new Date(a.timestamp)]
    is positive when [b] is later; NaN (an Invalid Date) is not positive. *)
Definition later_first (a b : Obj) : bool :=
  match date_ms (js_get b "timestamp"), date_ms (js_get a "timestamp") with
  | Some tb, Some ta => 0 <? tb - ta
  | _, _ => false
  end.

(** [getActivities(limit)]: [[...activities].sort(later_first).slice(0, limit)]. *)
Definition getActivities (limit : Z) : M (list Obj) :=
  s <- getS ;; ret (slice0 limit (sort_by later_first (activities s))).

End Activities.


Section SortBy.

Variable gt : Obj -> Obj -> bool.
Variable key : Obj -> Z.
Variable P : Obj -> Prop.
Hypothesis gt_key : forall x h, P x -> P h -> gt x h = (key x <? key h).

Definition key_desc (a b : Obj) : Prop := key b <= key a.

Lemma insert_by_In (x r : Obj) (l : list Obj) :
  In r (insert_by gt x l) <-> x = r \/ In r l.
Proof.
  induction l as [|h t IH]; simpl; [tauto|].
  destruct (gt x h); simpl; [rewrite IH|]; tauto.
Qed.

Lemma sort_by_In (r : Obj) (l : list Obj) : In r (sort_by gt l) <-> In r l.
Proof.
  induction l as [|x t IH]; simpl; [tauto|]. rewrite insert_by_In, IH. tauto.
Qed.

Lemma length_insert_by (x : Obj) (l : list Obj) :
  length (insert_by gt x l) = S (length l).
Proof. induction l as [|h t IH]; simpl; [reflexivity|]. destruct (gt x h); simpl; auto. Qed.

Lemma length_sort_by (l : list Obj) : length (sort_by gt l) = length l.
Proof. induction l; simpl; [reflexivity|]. now rewrite length_insert_by, IHl. Qed.

Lemma insert_by_Sorted (x : Obj) (l : list Obj) :
  P x -> Forall P l -> Sorted key_desc l -> Sorted key_desc (insert_by gt x l).
Proof.
  intros Hx Hnum Hs. induction Hs as [|h t Hs IH Hhd]; simpl.
  - repeat constructor.
  - apply Forall_cons in Hnum as [Hh Ht].
    rewrite (gt_key x h Hx Hh).
    destruct (Z.ltb_spec (key x) (key h)).
    + constructor; [exact (IH Ht)|].
      destruct t as [|y t]; simpl.
      * constructor. unfold key_desc. lia.
      * apply HdRel_inv in Hhd. destruct (gt x y); constructor; [exact Hhd|].
        unfold key_desc. lia.
    + constructor; [constructor; assumption|].
      constructor. unfold key_desc. lia.
Qed.

Lemma sort_by_Sorted (l : list Obj) : Forall P l -> Sorted key_desc (sort_by gt l).
Proof.
  intros Hl. induction Hl as [|x t Hx Ht IH]; simpl; [constructor|].
  apply insert_by_Sorted; auto.
  apply Forall_forall. intros r Hr. apply list_elem_of_In, (proj1 (sort_by_In r t)) in Hr.
  rewrite Forall_forall in Ht. apply Ht. now apply list_elem_of_In.
Qed.

End SortBy.

Lemma In_take (n : nat) (a : Obj) (l : list Obj) : In a (take n l) -> In a l.
Proof.
  intros Ha. rewrite <- (firstn_skipn n l). apply in_or_app. now left.
Qed.

Lemma length_slice0 (e : Z) (l : list Obj) :
  Z.of_nat (length (slice0 e l))
  = if e <? 0 then Z.max (Z.of_nat (length l) + e) 0
    else Z.min e (Z.of_nat (length l)).
Proof.
  unfold slice0. rewrite length_take.
  destruct (Z.ltb_spec e 0); lia.
Qed.

(** [getActivities(limit)] leaves the store as it is and returns
    [limit] activities when [0 <= limit <= n] (all [n] when [limit] is
    larger); a negative [limit] drops [-limit] activities from the end of
    the sorted list. *)
Theorem getActivities_length (date_ms : JsVal -> option Z) (limit : Z) (s : Store) :
  exists l, getActivities date_ms limit s = (Ret l, s)
    /\ Z.of_nat (length l)
       = (if limit <? 0 then Z.max (Z.of_nat (length (activities s)) + limit) 0
          else Z.min limit (Z.of_nat (length (activities s)))).
Proof.
  eexists. split; [reflexivity|].
  rewrite length_slice0, length_sort_by. reflexivity.
Qed.

(** When every activity's [timestamp] is a valid date, [getActivities]
    returns activities of the store, latest first. *)
Theorem getActivities_latest_first (date_ms : JsVal -> option Z) (limit : Z)
    (s : Store) :
  Forall (fun a => exists t, date_ms (js_get a "timestamp") = Some t) (activities s) ->
  exists l, getActivities date_ms limit s = (Ret l, s)
    /\ (forall a, In a l -> In a (activities s))
    /\ Sorted (key_desc (fun a => match date_ms (js_get a "timestamp") with
                                  | Some t => t | None => 0 end)) l.
Proof.
  intros Hvalid. eexists. split; [reflexivity|]. split.
  - intros a Ha. unfold slice0 in Ha. apply In_take in Ha.
    apply (sort_by_In (later_first date_ms)). exact Ha.
  - unfold slice0. apply take_Sorted.
    apply (sort_by_Sorted _ _ (fun a => exists t, date_ms (js_get a "timestamp") = Some t)).
    + intros x h [tx Hx] [th Hh]. unfold later_first. rewrite Hx, Hh.
      destruct (Z.ltb_spec 0 (th - tx)), (Z.ltb_spec tx th); auto; lia.
    + exact Hvalid.
Qed.

Definition date_of_number (v : JsVal) : option Z :=
  match v with VNum z => Some z | _ => None end.

Definition act1 : Obj := obj [("id", VStr "1"); ("timestamp", VNum 1710000000000)].
Definition act2 : Obj := obj [("id", VStr "2"); ("timestamp", VNum 1710500000000)].
Definition act3 : Obj := obj [("id", VStr "3"); ("timestamp", VNum 1709000000000)].
Definition with_acts : Store := mkStore [custA] [] [] [act1; act2; act3].

Lemma getActivities_latest_first_witness :
  Forall (fun a => exists t, date_of_number (js_get a "timestamp") = Some t)
    (activities with_acts)
  /\ exists l, getActivities date_of_number 2 with_acts = (Ret l, with_acts)
    /\ (forall a, In a l -> In a (activities with_acts))
    /\ Sorted (key_desc (fun a => match date_of_number (js_get a "timestamp") with
                                  | Some t => t | None => 0 end)) l.
Proof.
  assert (H : Forall (fun a => exists t, date_of_number (js_get a "timestamp") = Some t)
                (activities with_acts)) by (repeat constructor; eexists; reflexivity).
  split; [exact H|]. exact (getActivities_latest_first date_of_number 2 with_acts H).
Defined.

(** ** The Customers page: the local list after each handler

    The page keeps its own copy of the customers ([setCustomers]) and
    updates it after each service call instead of reloading it.  The view
    state modelled is that list and the error message; the modal and form
    flags only drive rendering. *)

Record CustomersView := mkView {
  view_customers : list Obj;
  view_error : option string
}.

(** [handleCreateCustomer(customerData)]. *)
Definition handleCreateCustomer (env : Env) (data : Obj) (v : CustomersView)
  : Store -> CustomersView * Store :=
  fun s => match createCustomer env data s with
           | (Ret r, s') => (mkView (view_customers v ++ [r]) (view_error v), s')
           | (Throw m, s') => (mkView (view_customers v) (Some m), s')
           end.

(** [handleUpdateCustomer(customerData)] with [editingCustomer.id = editingId]. *)
Definition handleUpdateCustomer (env : Env) (editingId : JsVal) (data : Obj)
    (v : CustomersView) : Store -> CustomersView * Store :=
  fun s => match updateCustomer env editingId data s with
           | (Ret r, s') =>
               (mkView (map (fun c => if strict_eq (js_get c "id") editingId
                                      then r else c) (view_customers v))
                       (view_error v), s')
           | (Throw m, s') => (mkView (view_customers v) (Some m), s')
           end.

(** [handleDeleteCustomer(customerId)]; [confirmed] is the answer to
    [window.confirm]. *)
Definition handleDeleteCustomer (confirmed : bool) (customerId : JsVal)
    (v : CustomersView) : Store -> CustomersView * Store :=
  fun s => if confirmed then
             match deleteCustomer customerId s with
             | (Ret _, s') =>
                 (mkView (List.filter (fun c => negb (strict_eq (js_get c "id") customerId))
                            (view_customers v)) (view_error v), s')
             | (Throw m, s') => (mkView (view_customers v) (Some m), s')
             end
           else (v, s).

Lemma present_or_absent (id : JsVal) (l : list Obj) :
  (exists o, In o l /\ has_id id o = true)
  \/ Forall (fun o => has_id id o = false) l.
Proof.
  induction l as [|a t IH]; [right; constructor|].
  destruct (has_id id a) eqn:Ha.
  - left. exists a. split; [left; reflexivity|exact Ha].
  - destruct IH as [(o & Ho & Hid)|Hall].
    + left. exists o. split; [right; exact Ho|exact Hid].
    + right. constructor; assumption.
Qed.

Lemma map_replace_none (id : JsVal) (r : Obj) (l : list Obj) :
  Forall (fun o => has_id id o = false) l ->
  map (fun c => if strict_eq (js_get c "id") id then r else c) l = l.
Proof.
  induction 1 as [|a t Ha _ IH]; simpl; [reflexivity|].
  unfold has_id in Ha. rewrite Ha, IH. reflexivity.
Qed.

Lemma filter_drop_none (id : JsVal) (l : list Obj) :
  Forall (fun o => has_id id o = false) l ->
  List.filter (fun c => negb (strict_eq (js_get c "id") id)) l = l.
Proof.
  induction 1 as [|a t Ha _ IH]; simpl; [reflexivity|].
  unfold has_id in Ha. rewrite Ha, IH. reflexivity.
Qed.

(** With distinct customer ids, [handleUpdateCustomer] keeps the page's
    list equal to the store's [customers] array: on success the page
    replaces the record with the edited id by the returned one, as the
    store does; on an absent id the service throws, both stay as they were
    and the page shows ['Customer not found']. *)
Theorem handleUpdateCustomer_in_sync (env : Env) (editingId : JsVal) (data : Obj)
    (err : option string) (s : Store) :
  NoDup (ids (customers s)) ->
  let '(v', s') := handleUpdateCustomer env editingId data (mkView (customers s) err) s in
  view_customers v' = customers s'
  /\ (Forall (fun o => has_id editingId o = false) (customers s) ->
        s' = s /\ view_error v' = Some "Customer not found"%string).
Proof.
  intros Hnd.
  destruct (present_or_absent editingId (customers s)) as [(o & Hin & Hid)|Habs].
  - destruct (findIndex_split (has_id editingId) _ o Hin Hid)
      as (pre & x & post & Hl & Hpre & Hx & Hfi).
    unfold handleUpdateCustomer, updateCustomer, update_entity, bindM, getS, putS, ret.
    simpl. rewrite Hfi, index_not_minus_one, Nat2Z.id, Hl, nth_error_mid.
    simpl. split.
    + rewrite set_nth_insert, map_app. simpl.
      unfold has_id in Hx. rewrite Hx.
      rewrite (map_replace_none _ _ pre Hpre).
      rewrite Hl in Hnd. unfold ids in Hnd.
      rewrite (map_replace_none _ _ post (unique_id_rest editingId pre post x Hnd Hx)).
      rewrite insert_app_r_alt by lia. rewrite Nat.sub_diag. reflexivity.
    + intros Hall. apply Forall_app in Hall as [_ Hall].
      apply Forall_cons in Hall as [Hxf _]. congruence.
  - unfold handleUpdateCustomer, updateCustomer, update_entity, bindM, getS, throw.
    simpl. rewrite (findIndex_absent _ _ Habs). simpl. auto.
Qed.

(** With distinct customer ids, a confirmed [handleDeleteCustomer] keeps
    the page's list equal to the store's [customers] array; on an absent
    id both stay as they were and the page shows ['Customer not found'].
    An unconfirmed delete changes nothing. *)
Theorem handleDeleteCustomer_in_sync (confirmed : bool) (customerId : JsVal)
    (err : option string) (s : Store) :
  NoDup (ids (customers s)) ->
  let '(v', s') := handleDeleteCustomer confirmed customerId (mkView (customers s) err) s in
  view_customers v' = customers s'
  /\ (confirmed = false -> s' = s /\ view_error v' = err)
  /\ (confirmed = true -> Forall (fun o => has_id customerId o = false) (customers s) ->
        s' = s /\ view_error v' = Some "Customer not found"%string).
Proof.
  intros Hnd. destruct confirmed; [|simpl; repeat split; congruence].
  destruct (present_or_absent customerId (customers s)) as [(o & Hin & Hid)|Habs].
  - destruct (findIndex_split (has_id customerId) _ o Hin Hid)
      as (pre & x & post & Hl & Hpre & Hx & Hfi).
    unfold handleDeleteCustomer, deleteCustomer, delete_entity, bindM, getS, putS, ret.
    simpl. rewrite Hfi, index_not_minus_one, Nat2Z.id, Hl, splice1_app.
    simpl. split; [|split; [discriminate|]].
    + rewrite List.filter_app. simpl.
      unfold has_id in Hx. rewrite Hx. simpl.
      rewrite (filter_drop_none _ pre Hpre).
      rewrite Hl in Hnd. unfold ids in Hnd.
      rewrite (filter_drop_none _ post (unique_id_rest customerId pre post x Hnd Hx)).
      reflexivity.
    + intros _ Hall. apply Forall_app in Hall as [_ Hall].
      apply Forall_cons in Hall as [Hxf _]. congruence.
  - unfold handleDeleteCustomer, deleteCustomer, delete_entity, bindM, getS, throw.
    simpl. rewrite (findIndex_absent _ _ Habs). simpl. repeat split; congruence.
Qed.

Lemma handleUpdateCustomer_in_sync_witness :
  NoDup (ids (customers seed))
  /\ let '(v', s') := handleUpdateCustomer env0 (VStr "B") (obj [("name", VStr "Beta Inc")])
                        (mkView (customers seed) None) seed in
     view_customers v' = customers s'
     /\ (Forall (fun o => has_id (VStr "B") o = false) (customers seed) ->
           s' = seed /\ view_error v' = Some "Customer not found"%string).
Proof.
  assert (H : NoDup (ids (customers seed)))
    by (apply (bool_decide_unpack _); vm_compute; reflexivity).
  split; [exact H|].
  exact (handleUpdateCustomer_in_sync env0 (VStr "B") (obj [("name", VStr "Beta Inc")])
           None seed H).
Defined.

Lemma handleDeleteCustomer_in_sync_witness :
  NoDup (ids (customers seed))
  /\ let '(v', s') := handleDeleteCustomer true (VStr "A") (mkView (customers seed) None) seed in
     view_customers v' = customers s'
     /\ (true = false -> s' = seed /\ view_error v' = None)
     /\ (true = true -> Forall (fun o => has_id (VStr "A") o = false) (customers seed) ->
           s' = seed /\ view_error v' = Some "Customer not found"%string).
Proof.
  assert (H : NoDup (ids (customers seed)))
    by (apply (bool_decide_unpack _); vm_compute; reflexivity).
  split; [exact H|].
  exact (handleDeleteCustomer_in_sync true (VStr "A") None seed H).
Defined.

(** ** Counts of [getDashboardStats] *)

Lemma count_cons (p : Obj -> bool) (d : Obj) (t : list Obj) :
  count p (d :: t) = (if p d then 1 else 0) + count p t.
Proof. unfold count. simpl. destruct (p d); simpl; lia. Qed.

Lemma count_nonneg (p : Obj -> bool) (l : list Obj) : 0 <= count p l.
Proof. unfold count. lia. Qed.

Lemma count_le_length (p : Obj -> bool) (l : list Obj) :
  count p l <= Z.of_nat (length l).
Proof.
  unfold count. pose proof (List.filter_length_le p l) as H. lia.
Qed.

(** A record has at most one of the statuses ['active'], ['won'], ['lost']. *)
Lemma status_exclusive (d : Obj) :
  (if has_status "active" d then 1 else 0) + (if has_status "won" d then 1 else 0)
  + (if has_status "lost" d then 1 else 0) <= 1.
Proof.
  unfold has_status, strict_eq. destruct (js_get d "status"); try (simpl; lia).
  destruct (String.eqb_spec s "active") as [->|Ha]; [simpl; lia|].
  destruct (String.eqb_spec s "won") as [->|Hw]; [simpl; lia|].
  destruct (String.eqb s "lost"); lia.
Qed.

(** The deal counts of the dashboard never exceed the number of deals:
    [activeDeals + wonDeals + lostDeals <= totalDeals], and
    [activeCustomers <= totalCustomers]. *)
Theorem dashboard_counts_bounded (s : Store) :
  let st := dashboard_stats s in
  activeDeals st + wonDeals st + lostDeals st <= totalDeals st
  /\ activeCustomers st <= totalCustomers st.
Proof.
  simpl. split; [|apply count_le_length].
  induction (deals s) as [|d t IH]; [unfold count; simpl; lia|].
  rewrite !count_cons. pose proof (status_exclusive d). simpl length. lia.
Qed.

Lemma stage_exclusive (d : Obj) :
  (if in_stage "qualification" d then 1 else 0) + (if in_stage "proposal" d then 1 else 0)
  + (if in_stage "negotiation" d then 1 else 0)
  <= (if has_status "active" d then 1 else 0).
Proof.
  unfold in_stage. destruct (has_status "active" d); rewrite ?Bool.andb_true_r,
    ?Bool.andb_false_r; [|lia].
  unfold strict_eq. destruct (js_get d "stage") as [| | | | |stg|]; try lia.
  destruct (String.eqb_spec stg "qualification") as [->|Hq]; [simpl; lia|].
  destruct (String.eqb_spec stg "proposal") as [->|Hp]; [simpl; lia|].
  destruct (String.eqb stg "negotiation"); lia.
Qed.

Lemma in_stage_In (stg : string) (ds : list Obj) (d : Obj) :
  In d (List.filter (in_stage stg) ds)
  <-> In d ds /\ js_get d "stage" = VStr stg /\ js_get d "status" = VStr "active".
Proof.
  rewrite filter_In. unfold in_stage, has_status. split.
  - intros [Hin Hp]. apply andb_prop in Hp as [H1 H2].
    apply strict_eq_true in H1, H2. auto.
  - intros (Hin & H1 & H2). split; [exact Hin|]. rewrite H1, H2. simpl.
    rewrite !String.eqb_refl. reflexivity.
Qed.

(** Each pipeline bucket holds exactly the active deals of its stage, and
    the three buckets together hold at most [activeDeals] deals. *)
Theorem pipeline_buckets (s : Store) :
  let st := dashboard_stats s in
  (forall d, In d (qualification (pipeline st))
     <-> In d (deals s) /\ js_get d "stage" = VStr "qualification"
         /\ js_get d "status" = VStr "active")
  /\ (forall d, In d (proposal (pipeline st))
     <-> In d (deals s) /\ js_get d "stage" = VStr "proposal"
         /\ js_get d "status" = VStr "active")
  /\ (forall d, In d (negotiation (pipeline st))
     <-> In d (deals s) /\ js_get d "stage" = VStr "negotiation"
         /\ js_get d "status" = VStr "active")
  /\ Z.of_nat (length (qualification (pipeline st)) + length (proposal (pipeline st))
               + length (negotiation (pipeline st))) <= activeDeals st.
Proof.
  simpl. split; [intros d; apply in_stage_In|].
  split; [intros d; apply in_stage_In|].
  split; [intros d; apply in_stage_In|].
  rewrite !Nat2Z.inj_add.
  change (count (in_stage "qualification") (deals s)
          + count (in_stage "proposal") (deals s)
          + count (in_stage "negotiation") (deals s)
          <= count (has_status "active") (deals s)).
  induction (deals s) as [|d t IH]; [unfold count; simpl; lia|].
  rewrite !count_cons. pose proof (stage_exclusive d). lia.
Qed.

(** ** The ranges of [conversionRate] and [avgHealthScore] *)

(** When some deal is won or lost, [conversionRate] is the finite
    percentage [100 * wonDeals / (wonDeals + lostDeals)], between 0 and 100. *)
Theorem conversionRate_percentage (s : Store) :
  let st := dashboard_stats s in
  0 < wonDeals st + lostDeals st ->
  exists q, conversionRate st = NFin q
    /\ (q == inject_Z (100 * wonDeals st) / inject_Z (wonDeals st + lostDeals st))%Q
    /\ (0 <= q <= 100)%Q.
Proof.
  intros st Hpos.
  pose proof (proj1 (dashboard_counts_bounded s)) as Hb.
  fold st in Hb.
  assert (Hw : 0 <= wonDeals st) by apply count_nonneg.
  assert (Hl : 0 <= lostDeals st) by apply count_nonneg.
  assert (Ha : 0 <= activeDeals st) by apply count_nonneg.
  unfold st at 1. simpl conversionRate.
  change (count (has_status "won") (deals s)) with (wonDeals st).
  change (count (has_status "lost") (deals s)) with (lostDeals st).
  change (Z.of_nat (length (deals s))) with (totalDeals st) in *.
  destruct (Z.ltb_spec 0 (totalDeals st)); [|lia].
  remember (wonDeals st) as w. remember (lostDeals st) as l.
  destruct (w + l) as [|p|p] eqn:E; [lia| |lia].
  unfold ZN, num_div, num_mul. simpl.
  eexists. split; [reflexivity|]. split.
  - unfold Qeq, Qdiv, Qmult, Qinv. simpl. lia.
  - unfold Qle, Qmult, Qinv. simpl. split; nia.
Qed.

Lemma conversionRate_percentage_witness :
  0 < wonDeals (dashboard_stats seed) + lostDeals (dashboard_stats seed)
  /\ exists q, conversionRate (dashboard_stats seed) = NFin q
    /\ (q == inject_Z (100 * wonDeals (dashboard_stats seed))
             / inject_Z (wonDeals (dashboard_stats seed) + lostDeals (dashboard_stats seed)))%Q
    /\ (0 <= q <= 100)%Q.
Proof.
  assert (H : 0 < wonDeals (dashboard_stats seed) + lostDeals (dashboard_stats seed))
    by (vm_compute; reflexivity).
  split; [exact H|]. exact (conversionRate_percentage seed H).
Defined.

Definition health_in_range (c : Obj) : Prop :=
  exists h, js_get c "healthScore" = VNum h /\ 0 <= h <= 100.

Lemma health_sum (cs : list Obj) (a : Z) :
  Forall health_in_range cs ->
  exists t, fold_left (fun acc x => js_plus acc (js_or (js_get x "healthScore") (VNum 0)))
              cs (VNum a) = VNum (a + t)
    /\ 0 <= t <= 100 * Z.of_nat (length cs).
Proof.
  intros Hcs. revert a.
  induction Hcs as [|c t (h & Hh & Hr) _ IH]; intros a; simpl.
  - exists 0. split; [f_equal; lia|lia].
  - assert (Hor : js_plus (VNum a) (js_or (js_get c "healthScore") (VNum 0))
                  = VNum (a + h)).
    { rewrite Hh. unfold js_or, truthy. destruct (Z.eqb_spec h 0); simpl.
      - subst. f_equal; lia.
      - reflexivity. }
    rewrite Hor. destruct (IH (a + h)) as (t' & Ht' & Hr').
    exists (h + t'). rewrite Ht'. split; [f_equal; lia|lia].
Qed.

(** With at least one customer and every [healthScore] a number in
    [0..100], [avgHealthScore] is an integer in [0..100]. *)
Theorem avgHealthScore_in_range (s : Store) :
  customers s <> [] -> Forall health_in_range (customers s) ->
  exists z, avgHealthScore (dashboard_stats s) = NFin (inject_Z z) /\ 0 <= z <= 100.
Proof.
  intros Hne Hcs. simpl avgHealthScore. unfold sum_by.
  destruct (health_sum (customers s) 0 Hcs) as (t & Ht & Hr). rewrite Ht.
  assert (Hn : 0 < Z.of_nat (length (customers s))).
  { destruct (customers s); [congruence|simpl; lia]. }
  revert Hr Hn. generalize (Z.of_nat (length (customers s))) as n.
  intros n Hr Hn. destruct n as [|p|p]; [lia| |lia].
  unfold num_of, to_int, ZN, num_div, math_round. simpl.
  eexists. split; [reflexivity|].
  unfold Qfloor. simpl. split.
  - apply Z.div_pos; lia.
  - rewrite !Pos2Z.inj_mul. apply Z.lt_succ_r.
    apply Z.div_lt_upper_bound; lia.
Qed.

Lemma avgHealthScore_in_range_witness :
  customers seed <> [] /\ Forall health_in_range (customers seed)
  /\ exists z, avgHealthScore (dashboard_stats seed) = NFin (inject_Z z)
     /\ 0 <= z <= 100.
Proof.
  assert (H1 : customers seed <> []) by discriminate.
  assert (H2 : Forall health_in_range (customers seed)).
  { simpl. constructor; [exists 90 | constructor; [exists 75 | constructor]];
      split; [reflexivity | lia | reflexivity | lia]. }
  split; [exact H1|]. split; [exact H2|].
  exact (avgHealthScore_in_range seed H1 H2).
Defined.

(** ** The [getDashboardStats] of the service module *)

(** The service module [src/services/crmService.js] keeps the same three
    arrays and computes a smaller summary: [wonDeals] counts the deals whose
    [stage] is ['closed-won'], and [conversionRate] divides by [totalDeals]. *)
Module Service.

Record Stats := mkStats {
  totalCustomers : Z;
  totalContacts : Z;
  totalDeals : Z;
  totalDealValue : JsVal;
  activeDeals : Z;
  wonDeals : Z;
  conversionRate : Num
}.

Definition has_stage (st : string) (o : Obj) : bool :=
  strict_eq (js_get o "stage") (VStr st).

Definition dashboard_stats (s : Store) : Stats :=
  let totalDeals := Z.of_nat (length (deals s)) in
  let wonDeals := count (has_stage "closed-won") (deals s) in
  mkStats
    (Z.of_nat (length (customers s)))
    (Z.of_nat (length (contacts s)))
    totalDeals
    (sum_by (fun d => js_get d "value") (deals s))
    (count (has_status "active") (deals s))
    wonDeals
    (if 0 <? totalDeals
     then num_mul (num_div (ZN wonDeals) (ZN totalDeals)) (ZN 100)
     else ZN 0).

Definition getDashboardStats : M Stats :=
  s <- getS ;; ret (dashboard_stats s).

End Service.

(** The service's [conversionRate] is always a finite percentage in
    [0..100]: [0] without deals, [100 * wonDeals / totalDeals] otherwise. *)
Theorem service_conversionRate_range (s : Store) :
  exists q, Service.conversionRate (Service.dashboard_stats s) = NFin q
    /\ (0 <= q <= 100)%Q
    /\ (Service.totalDeals (Service.dashboard_stats s) = 0%Z -> q == 0)%Q
    /\ ((0 < Service.totalDeals (Service.dashboard_stats s))%Z ->
        q == inject_Z (100 * Service.wonDeals (Service.dashboard_stats s))
             / inject_Z (Service.totalDeals (Service.dashboard_stats s)))%Q.
Proof.
  simpl.
  pose proof (count_le_length (Service.has_stage "closed-won") (deals s)) as Hle.
  pose proof (count_nonneg (Service.has_stage "closed-won") (deals s)) as Hnn.
  revert Hle Hnn.
  generalize (count (Service.has_stage "closed-won") (deals s)) as w.
  generalize (Z.of_nat (length (deals s))) as n.
  intros n w Hle Hnn.
  destruct (Z.ltb_spec 0 n) as [Hn|Hn].
  - destruct n as [|p|p]; [lia| |lia].
    unfold ZN, num_div, num_mul. simpl.
    eexists. split; [reflexivity|]. split; [|split].
    + unfold Qle, Qmult, Qinv. simpl. split; nia.
    + intros; lia.
    + intros _. unfold Qeq, Qdiv, Qmult, Qinv. simpl. lia.
  - exists 0%Q. split; [reflexivity|]. split; [split; discriminate|].
    split; [reflexivity|]. intros; lia.
Qed.

Lemma create_then_get_fresh_witness :
  exists r s1,
    create_entity ECustomer env0 (obj [("name", VStr "Gamma")]) seed = (Ret r, s1)
    /\ fst (get_entity ECustomer (VStr (uuid env0)) s1) = Ret (Some r).
Proof.
  apply create_then_get_fresh.
  - reflexivity.
  - simpl. repeat constructor.
Defined.
